(** * larq.activations: clipped activation functions and their layer wrappers

    Shallow embedding of [larq/activations.py].

    Numbers.  The entries of a tensor and the Python numeric parameters
    ([lower_b], [upper_b], [alpha], the literals [0.5], [1], ...) are
    modelled by exact rationals [Q]; every decimal literal of the source
    denotes the rational it spells.  Equality of numbers is [Qeq] ([==]).
    The rationals have no rounding, no infinity and no NaN: what the
    functions do with the special values of IEEE-754 is stated on a
    second reading of the three functions, in binary32 arithmetic
    ([Module Float32]).

    TensorFlow.  [tf.clip_by_value], [tf.math.maximum], [tf.math.minimum]
    and the arithmetic operators are library primitives.  [Module tf]
    gives what they compute on one entry, [Module tft] lifts them to
    tensors, where a Python number is broadcast against every entry.

    Keras.  The wrappers extend [tf.keras.layers.Layer].  What they use
    of the base class is modelled in [Module keras]; the configuration
    the base class reports is an argument of [get_config]. *)

From Stdlib Require Import String SpecFloat.
From Stdlib Require Import QArith Qminmax Qabs Lqa List Lia PeanoNat.
Import ListNotations.

Local Open Scope Q_scope.

(** ** TensorFlow primitives on one entry *)

Module tf.

(** [tf.math.minimum(x, y)] and [tf.math.maximum(x, y)]. *)
Definition minimum (x y : Q) : Q := Qmin x y.
Definition maximum (x y : Q) : Q := Qmax x y.

(** [tf.clip_by_value(t, clip_value_min, clip_value_max)]: TensorFlow
    takes the minimum with the upper value first and the maximum with
    the lower value second. *)
Definition clip_by_value (t clip_value_min clip_value_max : Q) : Q :=
  maximum (minimum t clip_value_max) clip_value_min.

End tf.

(** ** The activation functions on one entry *)

(** Default values of the keyword parameters. *)
Definition default_lower_b : Q := -1.0.
Definition default_upper_b : Q := 1.0.
Definition default_alpha : Q := 0.2.

(** [hard_tanh(x, lower_b=-1.0, upper_b=1.0)]. *)
Definition hard_tanh (x lower_b upper_b : Q) : Q :=
  tf.clip_by_value x lower_b upper_b.

(** [hard_sigmoid(x)]. *)
Definition hard_sigmoid (x : Q) : Q :=
  tf.clip_by_value (x + 0.5) 0.0 1.0.

(** [leaky_tanh(x, alpha=0.2)]. *)
Definition leaky_tanh (x alpha : Q) : Q :=
  tf.clip_by_value x (-1) 1
  + (tf.maximum x 1 - 1) * alpha
  + (tf.minimum x (-1) + 1) * alpha.

(** The clamp of the spec's glossary,
    [clamp(v, lo, hi) = max(lo, min(v, hi))]; the source is compared with
    it, it is not used to define the source's functions. *)
Definition spec_clamp (v lo hi : Q) : Q := Qmax lo (Qmin v hi).

(** ** The activation functions in binary32 arithmetic *)

(** The entries of a [float32] tensor, with the operations of
    IEEE-754 binary32: rounding to nearest even, signed zeros and
    infinities, one NaN.  The Python numbers of the source are converted
    to binary32 before they meet an entry. *)
Module Float32.

Definition prec : Z := 24.
Definition emax : Z := 128.

Definition float : Type := spec_float.

Definition add (x y : float) : float := SFadd prec emax x y.
Definition sub (x y : float) : float := SFsub prec emax x y.
Definition mul (x y : float) : float := SFmul prec emax x y.

(** The binary32 value of an integer literal, and of [0.5]. *)
Definition of_int (n : Z) : float := binary_normalize prec emax n 0 false.
Definition zero : float := of_int 0.
Definition one : float := of_int 1.
Definition minus_one : float := of_int (-1).
Definition half : float := binary_normalize prec emax 1 (-1) false.

Definition is_nan (x : float) : bool :=
  match x with
  | S754_nan => true
  | _ => false
  end.



(** [tf.math.minimum] and [tf.math.maximum]: NaN when an operand is
    NaN, else the smaller, respectively the larger, operand. *)
Definition minimum (x y : float) : float :=
  if is_nan x || is_nan y then S754_nan
  else if SFltb y x then y else x.
Definition maximum (x y : float) : float :=
  if is_nan x || is_nan y then S754_nan
  else if SFltb x y then y else x.

Definition clip_by_value (t clip_value_min clip_value_max : float) : float :=
  maximum (minimum t clip_value_max) clip_value_min.

Definition hard_tanh (x lower_b upper_b : float) : float :=
  clip_by_value x lower_b upper_b.

Definition hard_sigmoid (x : float) : float :=
  clip_by_value (add x half) zero one.

Definition leaky_tanh (x alpha : float) : float :=
  add (add (clip_by_value x minus_one one)
           (mul (sub (maximum x one) one) alpha))
      (mul (add (minimum x minus_one) one) alpha).


End Float32.

(** ** Tensors *)

(** A tensor is a shape and a flat, row-major buffer of entries.  A
    rank-0 tensor has shape [[]] and one entry; a tensor with a zero in
    its shape has no entry. *)
Record Tensor : Type := mkTensor {
  shape : list nat;
  values : list Q
}.

Definition num_elements (s : list nat) : nat := fold_right Nat.mul 1%nat s.

Definition well_formed (t : Tensor) : Prop :=
  length (values t) = num_elements (shape t).

(** The entry at flat position [i], if there is one. *)
Definition entry (t : Tensor) (i : nat) : option Q := nth_error (values t) i.

Definition map_entries (f : Q -> Q) (t : Tensor) : Tensor :=
  {| shape := shape t; values := map f (values t) |}.

Definition shape_eqb (s1 s2 : list nat) : bool :=
  if list_eq_dec Nat.eq_dec s1 s2 then true else false.

Fixpoint zip_with (f : Q -> Q -> Q) (l1 l2 : list Q) : list Q :=
  match l1, l2 with
  | a :: l1', b :: l2' => f a b :: zip_with f l1' l2'
  | _, _ => []
  end.

(** ** Tensor objects *)

(** Python passes tensors by reference.  The tensor objects alive at a
    point of the program form a heap; a reference is a position in it.
    A computation runs on a heap and either returns a value and the heap
    it leaves, or raises. *)
Definition ref : Type := nat.
Definition Heap : Type := list Tensor.
Definition M (A : Type) : Type := Heap -> option (A * Heap).

Definition bind {A B : Type} (m : M A) (k : A -> M B) : M B :=
  fun h =>
    match m h with
    | Some (a, h') => k a h'
    | None => None
    end.

Notation "x <- m ;; k" := (bind m (fun x => k))
  (at level 61, m at next level, right associativity).

(** [raise] stands for a raised [InvalidArgumentError]. *)
Definition raise {A : Type} : M A := fun _ => None.

(** The object a reference points to. *)
Definition read (r : ref) : M Tensor :=
  fun h =>
    match nth_error h r with
    | Some t => Some (t, h)
    | None => None
    end.

(** A new object, placed after the ones alive. *)
Definition alloc (t : Tensor) : M ref :=
  fun h => Some (length h, h ++ [t]).

(** ** TensorFlow primitives on tensors *)

(** Every primitive reads its operands and returns a new tensor.  A
    Python number is broadcast against every entry of the tensor
    operand, the result has the tensor's shape. *)
Module tft.

Definition pointwise (f : Q -> Q) (x : ref) : M ref :=
  t <- read x ;; alloc (map_entries f t).

Definition minimum (x : ref) (y : Q) : M ref :=
  pointwise (fun v => tf.minimum v y) x.
Definition maximum (x : ref) (y : Q) : M ref :=
  pointwise (fun v => tf.maximum v y) x.
Definition add_scalar (x : ref) (y : Q) : M ref :=
  pointwise (fun v => v + y) x.
Definition sub_scalar (x : ref) (y : Q) : M ref :=
  pointwise (fun v => v - y) x.
Definition mul_scalar (x : ref) (y : Q) : M ref :=
  pointwise (fun v => v * y) x.

Definition clip_by_value (t : ref) (clip_value_min clip_value_max : Q)
  : M ref :=
  t_min <- minimum t clip_value_max ;;
  maximum t_min clip_value_min.

(** A tensor plus a tensor.  Operands of one shape are added entry by
    entry.  Operands of different shapes are either broadcast or
    rejected by TensorFlow; the activations never add such operands and
    this model raises for all of them. *)
Definition add (x y : ref) : M ref :=
  tx <- read x ;;
  ty <- read y ;;
  if shape_eqb (shape tx) (shape ty)
  then alloc {| shape := shape tx;
                values := zip_with Qplus (values tx) (values ty) |}
  else raise.

End tft.

(** ** The activation functions on tensors *)

Module OnTensor.

Definition hard_tanh (x : ref) (lower_b upper_b : Q) : M ref :=
  tft.clip_by_value x lower_b upper_b.

Definition hard_sigmoid (x : ref) : M ref :=
  shifted <- tft.add_scalar x 0.5 ;;
  tft.clip_by_value shifted 0.0 1.0.

(** The operands are evaluated from left to right and the sum
    associates to the left, as in Python. *)
Definition leaky_tanh (x : ref) (alpha : Q) : M ref :=
  clipped <- tft.clip_by_value x (-1) 1 ;;
  above <- tft.maximum x 1 ;;
  above <- tft.sub_scalar above 1 ;;
  above <- tft.mul_scalar above alpha ;;
  s <- tft.add clipped above ;;
  below <- tft.minimum x (-1) ;;
  below <- tft.add_scalar below 1 ;;
  below <- tft.mul_scalar below alpha ;;
  tft.add s below.

End OnTensor.

(** ** Python dictionaries *)

(** The values a layer configuration holds. *)
Inductive pyval : Type :=
| VNone
| VBool (b : bool)
| VFloat (q : Q)
| VStr (s : string).

(** A dictionary keeps its items in insertion order; its keys are
    distinct. *)
Definition dict : Type := list (string * pyval).

Definition dict_keys (d : dict) : list string := map fst d.

Definition dict_wf (d : dict) : Prop := NoDup (dict_keys d).

(** [d.get(k)]. *)
Fixpoint dict_get (d : dict) (k : string) : option pyval :=
  match d with
  | [] => None
  | (k', v') :: d' => if String.eqb k' k then Some v' else dict_get d' k
  end.

(** [d[k] = v]: a key already present keeps its place and takes the new
    value, a new key goes to the end. *)
Fixpoint dict_set (d : dict) (k : string) (v : pyval) : dict :=
  match d with
  | [] => [(k, v)]
  | (k', v') :: d' =>
      if String.eqb k' k then (k', v) :: d'
      else (k', v') :: dict_set d' k v
  end.

(** [d.update(other)]: the items of [other] are set one after the
    other. *)
Definition dict_update (d other : dict) : dict :=
  fold_left (fun acc item => dict_set acc (fst item) (snd item)) other d.

(** ** The layer wrappers *)

(** The part of [tf.keras.layers.Layer] the wrappers rely on: a layer
    keeps the weights registered with it, none after construction, and
    reports the trainable ones while it is marked trainable. *)
Module keras.

Record Layer : Type := mkLayer {
  trainable : bool;
  _trainable_weights : list ref;
  _non_trainable_weights : list ref
}.

(** [Layer.__init__(trainable=True, ...)]. *)
Definition __init__ (kw_trainable : bool) : Layer :=
  {| trainable := kw_trainable;
     _trainable_weights := [];
     _non_trainable_weights := [] |}.

Definition trainable_weights (l : Layer) : list ref :=
  if trainable l then _trainable_weights l else [].

End keras.

Module HardTanh.

Record t : Type := mk {
  lower_b : Q;
  upper_b : Q;
  super : keras.Layer
}.

(** [__init__(self, lower_b=-1.0, upper_b=1.0, **kwargs)]; of the
    keyword arguments passed on to the base class only [trainable] is
    kept. *)
Definition __init__ (lower_b upper_b : Q) (kw_trainable : bool) : t :=
  {| lower_b := lower_b;
     upper_b := upper_b;
     super := keras.__init__ kw_trainable |}.

Definition call (self : t) (inputs : ref) : M ref :=
  OnTensor.hard_tanh inputs (lower_b self) (upper_b self).

(** Inherited from the base class. *)
Definition trainable_weights (self : t) : list ref :=
  keras.trainable_weights (super self).

(** Overridden by the wrapper. *)
Definition non_trainable_weights (self : t) : list ref := [].

Definition compute_output_shape (self : t) (input_shape : list nat)
  : list nat := input_shape.

(** [get_config(self)]: a new dictionary with the items of the base
    class's configuration [super_config], then the two bounds. *)
Definition get_config (self : t) (super_config : dict) : dict :=
  dict_set
    (dict_set (dict_update [] super_config)
              "lower_b" (VFloat (lower_b self)))
    "upper_b" (VFloat (upper_b self)).

End HardTanh.

Module HardSigmoid.

Record t : Type := mk {
  super : keras.Layer
}.

Definition __init__ (kw_trainable : bool) : t :=
  {| super := keras.__init__ kw_trainable |}.

Definition call (self : t) (inputs : ref) : M ref :=
  OnTensor.hard_sigmoid inputs.

Definition trainable_weights (self : t) : list ref :=
  keras.trainable_weights (super self).

Definition non_trainable_weights (self : t) : list ref := [].

Definition compute_output_shape (self : t) (input_shape : list nat)
  : list nat := input_shape.

(** [get_config(self)]: a new dictionary with the items of the base
    class's configuration. *)
Definition get_config (self : t) (super_config : dict) : dict :=
  dict_update [] super_config.

End HardSigmoid.

(** ** Entry-wise operations *)

(** [out] is the entry-wise image of [x] under [f]: the same shape, and
    at every flat position the entry of [out] is [f] of the entry of [x]
    at that position. *)
Definition elementwise_image (f : Q -> Q) (x out : Tensor) : Prop :=
  shape out = shape x
  /\ values out = map f (values x)
  /\ forall i : nat, entry out i = option_map f (entry x i).

(** Running [m] on the heap [h] returns a reference to a new object
    [out] and leaves every object of [h] where and as it was. *)
Definition returns_new (m : M ref) (h : Heap) (out : Tensor) : Prop :=
  exists (r : ref) (h' : Heap),
    m h = Some (r, h')
    /\ (length h <= r)%nat
    /\ nth_error h' r = Some out
    /\ forall (a : ref) (u : Tensor),
         nth_error h a = Some u -> nth_error h' a = Some u.

(** [call] is the entry-wise map of [f]: on every heap and for every
    live argument it returns a new tensor that is the entry-wise image
    of the argument, and mutates nothing. *)
Definition elementwise_call (f : Q -> Q) (call : ref -> M ref) : Prop :=
  forall (h : Heap) (x : ref) (t : Tensor),
    nth_error h x = Some t ->
    exists out : Tensor,
      returns_new (call x) h out /\ elementwise_image f t out.

(** ** Proof tools *)

(** Splits every minimum and maximum of the goal into its cases, the
    innermost comparison first. *)
Ltac minmax_cases :=
  unfold hard_tanh, hard_sigmoid, leaky_tanh, spec_clamp,
    tf.clip_by_value, tf.maximum, tf.minimum,
    Qmax, Qmin, GenericMinMax.gmax, GenericMinMax.gmin;
  repeat match goal with
  | |- context [Qcompare ?a ?b] =>
      lazymatch a with context [Qcompare _ _] => fail | _ => idtac end;
      lazymatch b with context [Qcompare _ _] => fail | _ => idtac end;
      destruct (Qcompare_spec a b); cbv beta iota
  end.

Ltac minmax_solve := intros; minmax_cases; solve [lra | nra].


(** ** The clip primitive *)

Lemma clip_by_value_inside (t lo hi : Q) :
  lo <= t -> t <= hi -> tf.clip_by_value t lo hi == t.
Proof. minmax_solve. Qed.

Lemma clip_by_value_range (t lo hi : Q) :
  lo <= hi -> lo <= tf.clip_by_value t lo hi <= hi.
Proof. intros H; split; revert H; minmax_solve. Qed.

(** With inverted bounds the clip is the lower value, whatever the
    argument. *)
Lemma clip_by_value_inverted (t lo hi : Q) :
  hi < lo -> tf.clip_by_value t lo hi == lo.
Proof. minmax_solve. Qed.

Lemma clip_by_value_monotone (t u lo hi : Q) :
  t <= u -> tf.clip_by_value t lo hi <= tf.clip_by_value u lo hi.
Proof. minmax_solve. Qed.

Lemma clip_by_value_idempotent (t lo hi : Q) :
  tf.clip_by_value (tf.clip_by_value t lo hi) lo hi
  == tf.clip_by_value t lo hi.
Proof. minmax_solve. Qed.

(** ** hard_tanh *)

(** C2. [hard_tanh x lower_b upper_b] is [x] clamped into
    [[lower_b, upper_b]], that is [max(lower_b, min(x, upper_b))]; it
    lies between the bounds when they are ordered, it is [x] itself when
    [x] lies between the bounds, and with the default bounds it lies in
    [[-1, 1]] for every [x]. *)
Theorem hard_tanh_clamp (x lower_b upper_b : Q) :
  hard_tanh x lower_b upper_b == spec_clamp x lower_b upper_b
  /\ (lower_b <= upper_b ->
      lower_b <= hard_tanh x lower_b upper_b <= upper_b)
  /\ (lower_b <= x <= upper_b -> hard_tanh x lower_b upper_b == x)
  /\ -1 <= hard_tanh x default_lower_b default_upper_b <= 1.
Proof.
  split; [| split; [| split]].
  - unfold hard_tanh, spec_clamp, tf.clip_by_value, tf.maximum, tf.minimum.
    apply Q.max_comm.
  - apply clip_by_value_range.
  - intros [Hl Hu]. now apply clip_by_value_inside.
  - unfold hard_tanh, default_lower_b, default_upper_b.
    pose proof (clip_by_value_range x (-1.0) 1.0) as H. lra.
Qed.

Lemma hard_tanh_clamp_witness :
  hard_tanh 0.25 (-2) 3 == 0.25 /\ -2 <= hard_tanh 7 (-2) 3 <= 3.
Proof.
  split.
  - destruct (hard_tanh_clamp 0.25 (-2) 3) as (_ & _ & Hin & _).
    apply Hin. split; lra.
  - destruct (hard_tanh_clamp 7 (-2) 3) as (_ & Hrange & _).
    apply Hrange. lra.
Defined.

(** C6. With the default bounds [hard_tanh] is idempotent. *)
Theorem hard_tanh_idempotent (x : Q) :
  hard_tanh (hard_tanh x default_lower_b default_upper_b)
            default_lower_b default_upper_b
  == hard_tanh x default_lower_b default_upper_b.
Proof. apply clip_by_value_idempotent. Qed.

(** ** hard_sigmoid *)

(** C3. [hard_sigmoid x] is [clamp(x + 0.5, 0.0, 1.0)]; it lies in
    [[0, 1]] for every [x], and it maps [-0.5] to [0], [0.5] to [1] and
    [0] to [0.5]. *)
Theorem hard_sigmoid_clamp :
  (forall x : Q, hard_sigmoid x == spec_clamp (x + 0.5) 0.0 1.0)
  /\ (forall x : Q, 0 <= hard_sigmoid x <= 1)
  /\ hard_sigmoid (-0.5) == 0
  /\ hard_sigmoid 0.5 == 1
  /\ hard_sigmoid 0 == 0.5.
Proof.
  split; [| split; [| split; [| split]]].
  - intros x.
    unfold hard_sigmoid, spec_clamp, tf.clip_by_value, tf.maximum, tf.minimum.
    apply Q.max_comm.
  - intros x. unfold hard_sigmoid.
    assert (H : 0.0 <= 1.0) by lra.
    apply (clip_by_value_range (x + 0.5)) in H. lra.
  - reflexivity.
  - reflexivity.
  - reflexivity.
Qed.

(** C9. [hard_sigmoid] is [hard_tanh] with the bounds [0] and [1] at the
    shifted argument [x + 0.5]. *)
Theorem hard_sigmoid_as_hard_tanh (x : Q) :
  hard_sigmoid x == hard_tanh (x + 0.5) 0.0 1.0.
Proof. unfold hard_sigmoid, hard_tanh. reflexivity. Qed.

(** ** leaky_tanh *)

(** C1. [leaky_tanh] is the identity on [[-1, 1]], the line of slope
    [alpha] through [(1, 1)] above [1] and the line of slope [alpha]
    through [(-1, -1)] below [-1]; the outer pieces meet the inner one at
    [1] and at [-1]. *)
Theorem leaky_tanh_piecewise (x alpha : Q) :
  (-1 <= x <= 1 -> leaky_tanh x alpha == x)
  /\ (1 < x -> leaky_tanh x alpha == 1 + alpha * (x - 1))
  /\ (x < -1 -> leaky_tanh x alpha == -1 + alpha * (x + 1))
  /\ leaky_tanh 1 alpha == 1 + alpha * (1 - 1)
  /\ leaky_tanh (-1) alpha == -1 + alpha * (-1 + 1).
Proof.
  split; [| split; [| split; [| split]]].
  - intros [Hl Hu]. revert Hl Hu. minmax_solve.
  - minmax_solve.
  - minmax_solve.
  - minmax_solve.
  - minmax_solve.
Qed.

Lemma leaky_tanh_piecewise_witness :
  leaky_tanh 0.5 0.2 == 0.5
  /\ leaky_tanh 3 0.2 == 1 + 0.2 * (3 - 1)
  /\ leaky_tanh (-3) 0.2 == -1 + 0.2 * (-3 + 1).
Proof.
  split; [| split].
  - destruct (leaky_tanh_piecewise 0.5 0.2) as (Hin & _).
    apply Hin. split; lra.
  - destruct (leaky_tanh_piecewise 3 0.2) as (_ & Habove & _).
    apply Habove. lra.
  - destruct (leaky_tanh_piecewise (-3) 0.2) as (_ & _ & Hbelow & _).
    apply Hbelow. lra.
Defined.

(** ** Concrete evaluations *)

(** C7. The five evaluations listed by the spec. *)
Theorem concrete_evaluations :
  hard_tanh 2.0 default_lower_b default_upper_b == 1.0
  /\ hard_tanh (-3.0) (-2.0) 2.0 == -2.0
  /\ hard_sigmoid 10.0 == 1.0
  /\ leaky_tanh 2.0 0.2 == 1.2
  /\ leaky_tanh (-2.0) 0.2 == -1.2.
Proof. split; [| split; [| split; [| split]]]; reflexivity. Qed.

(** ** Monotonicity *)

(** C10. Each function is non-decreasing in its argument: [hard_tanh]
    for ordered bounds, [hard_sigmoid], and [leaky_tanh] for a
    non-negative slope. *)
Theorem activations_monotone (x y : Q) :
  x <= y ->
  (forall lower_b upper_b : Q,
      lower_b <= upper_b ->
      hard_tanh x lower_b upper_b <= hard_tanh y lower_b upper_b)
  /\ hard_sigmoid x <= hard_sigmoid y
  /\ (forall alpha : Q,
         0 <= alpha -> leaky_tanh x alpha <= leaky_tanh y alpha).
Proof.
  intros Hxy. split; [| split].
  - intros lower_b upper_b _. now apply clip_by_value_monotone.
  - unfold hard_sigmoid. apply clip_by_value_monotone. lra.
  - intros alpha Ha. revert Hxy Ha. minmax_solve.
Qed.

Lemma activations_monotone_witness :
  hard_tanh 0.5 (-1) 1 <= hard_tanh 2 (-1) 1
  /\ hard_sigmoid 0.5 <= hard_sigmoid 2
  /\ leaky_tanh 0.5 0.2 <= leaky_tanh 2 0.2.
Proof.
  assert (H : 0.5 <= 2) by lra.
  destruct (activations_monotone 0.5 2 H) as [Ht [Hs Hl]].
  split; [| split].
  - apply Ht. lra.
  - exact Hs.
  - apply Hl. lra.
Defined.

(** ** Tensors: entry-wise maps *)

Lemma entry_map_entries (f : Q -> Q) (t : Tensor) (i : nat) :
  entry (map_entries f t) i = option_map f (entry t i).
Proof. unfold entry, map_entries; simpl. apply nth_error_map. Qed.

Lemma zip_with_map (g : Q -> Q -> Q) (f1 f2 : Q -> Q) (l : list Q) :
  zip_with g (map f1 l) (map f2 l) = map (fun v => g (f1 v) (f2 v)) l.
Proof.
  induction l as [| a l IH]; simpl; [reflexivity | now rewrite IH].
Qed.

Lemma map_entries_compose (f g : Q -> Q) (t : Tensor) :
  map_entries g (map_entries f t) = map_entries (fun v => g (f v)) t.
Proof. unfold map_entries; simpl. now rewrite map_map. Qed.

(** The entry-wise sum of two maps of one tensor is a map of it. *)
Lemma sum_map_entries (f g : Q -> Q) (t : Tensor) :
  {| shape := shape (map_entries f t);
     values := zip_with Qplus (values (map_entries f t))
                              (values (map_entries g t)) |}
  = map_entries (fun v => f v + g v) t.
Proof. unfold map_entries; simpl. now rewrite zip_with_map. Qed.

Lemma map_entries_image (f : Q -> Q) (t : Tensor) :
  elementwise_image f t (map_entries f t).
Proof.
  split; [reflexivity | split; [reflexivity |]].
  intros i. apply entry_map_entries.
Qed.

Lemma elementwise_image_well_formed (f : Q -> Q) (x out : Tensor) :
  elementwise_image f x out -> well_formed x -> well_formed out.
Proof.
  intros (Hs & Hv & _) Hx. unfold well_formed in *.
  now rewrite Hs, Hv, length_map.
Qed.

(** The entry of an image at a position is determined by the entry of
    the argument at that position alone. *)
Lemma elementwise_image_local (f : Q -> Q) (x y out_x out_y : Tensor) (i : nat) :
  elementwise_image f x out_x -> elementwise_image f y out_y ->
  entry x i = entry y i -> entry out_x i = entry out_y i.
Proof.
  intros (_ & _ & Hx) (_ & _ & Hy) Hi. now rewrite Hx, Hy, Hi.
Qed.


Lemma shape_eqb_refl (s : list nat) : shape_eqb s s = true.
Proof.
  unfold shape_eqb. destruct (list_eq_dec Nat.eq_dec s s); congruence.
Qed.

(** ** Running the primitives *)

Lemma live_snoc (h : Heap) (u : Tensor) (a : ref) (t : Tensor) :
  nth_error h a = Some t -> nth_error (h ++ [u]) a = Some t.
Proof.
  intros Ha. rewrite nth_error_app1; [exact Ha |].
  apply nth_error_Some. congruence.
Qed.

Lemma live_last (h : Heap) (u : Tensor) :
  nth_error (h ++ [u]) (length h) = Some u.
Proof. rewrite nth_error_app2, Nat.sub_diag; [reflexivity | lia]. Qed.

Lemma bind_assoc {A B C : Type} (m : M A) (f : A -> M B) (g : B -> M C)
  (h : Heap) :
  bind (bind m f) g h = bind m (fun a => bind (f a) g) h.
Proof. unfold bind. destruct (m h) as [[a h'] |]; reflexivity. Qed.

Lemma pointwise_run (f : Q -> Q) (x : ref) (h : Heap) (t : Tensor) :
  nth_error h x = Some t ->
  tft.pointwise f x h = Some (length h, h ++ [map_entries f t]).
Proof.
  intros Hx. unfold tft.pointwise, bind, read, alloc. now rewrite Hx.
Qed.

Lemma pointwise_step {B : Type} (f : Q -> Q) (x : ref) (k : ref -> M B)
  (h : Heap) (t : Tensor) :
  nth_error h x = Some t ->
  bind (tft.pointwise f x) k h = k (length h) (h ++ [map_entries f t]).
Proof.
  intros Hx. unfold bind at 1. now rewrite (pointwise_run f x h t Hx).
Qed.

Lemma add_run (x y : ref) (h : Heap) (tx ty : Tensor) :
  nth_error h x = Some tx -> nth_error h y = Some ty ->
  shape tx = shape ty ->
  tft.add x y h
  = Some (length h,
          h ++ [{| shape := shape tx;
                   values := zip_with Qplus (values tx) (values ty) |}]).
Proof.
  intros Hx Hy Hs. unfold tft.add, bind, read, alloc.
  now rewrite Hx, Hy, Hs, shape_eqb_refl.
Qed.

Lemma add_step {B : Type} (x y : ref) (k : ref -> M B)
  (h : Heap) (tx ty : Tensor) :
  nth_error h x = Some tx -> nth_error h y = Some ty ->
  shape tx = shape ty ->
  bind (tft.add x y) k h
  = k (length h)
      (h ++ [{| shape := shape tx;
                values := zip_with Qplus (values tx) (values ty) |}]).
Proof.
  intros Hx Hy Hs. unfold bind at 1. now rewrite (add_run x y h tx ty Hx Hy Hs).
Qed.

(** Adding tensors of different shapes raises in this model. *)
Lemma add_raises (x y : ref) (h : Heap) (tx ty : Tensor) :
  nth_error h x = Some tx -> nth_error h y = Some ty ->
  shape tx <> shape ty -> tft.add x y h = None.
Proof.
  intros Hx Hy Hs. unfold tft.add, bind, read, raise, shape_eqb.
  rewrite Hx, Hy.
  destruct (list_eq_dec Nat.eq_dec (shape tx) (shape ty)); [contradiction |].
  reflexivity.
Qed.

(** A reference is live in a heap grown at its end: it is the last
    object, or it was live before. *)
Ltac live :=
  solve [ repeat first [ apply live_last | eassumption | apply live_snoc ] ].

Ltac unfold_primitives :=
  unfold tft.clip_by_value, tft.minimum, tft.maximum,
    tft.add_scalar, tft.sub_scalar, tft.mul_scalar.

(** The heap left by a run that only placed new objects at the end. *)
Ltac grown :=
  split; [ rewrite ?length_app; simpl; lia
         | split; [ apply live_last | intros a u Ha; live ] ].

(** ** Running the activations *)

(** Runs the primitives of the goal one after the other. *)
Ltac run :=
  unfold_primitives;
  repeat match goal with
  | |- context [bind (bind ?m ?f) ?g ?h] => rewrite (bind_assoc m f g h)
  | |- context [bind (tft.pointwise ?f ?x) ?k ?h] =>
      erewrite (pointwise_step f x k h) by live
  | |- context [bind (tft.add ?x ?y) ?k ?h] =>
      erewrite (add_step x y k h) by first [ live | reflexivity ]
  end;
  match goal with
  | |- context [tft.pointwise ?f ?x ?h] =>
      erewrite (pointwise_run f x h) by live
  | |- context [tft.add ?x ?y ?h] =>
      erewrite (add_run x y h) by first [ live | reflexivity ]
  end.

Ltac run_new :=
  unfold returns_new; run;
  do 2 eexists; split; [reflexivity | grown].

Lemma hard_tanh_call (lower_b upper_b : Q) :
  elementwise_call (fun v => hard_tanh v lower_b upper_b)
                   (fun x => OnTensor.hard_tanh x lower_b upper_b).
Proof.
  intros h x t Hx. unfold OnTensor.hard_tanh.
  eexists. split; [run_new |].
  rewrite map_entries_compose. apply map_entries_image.
Qed.

Lemma hard_sigmoid_call :
  elementwise_call hard_sigmoid OnTensor.hard_sigmoid.
Proof.
  intros h x t Hx. unfold OnTensor.hard_sigmoid.
  eexists. split; [run_new |].
  rewrite !map_entries_compose. apply map_entries_image.
Qed.

Lemma leaky_tanh_call (alpha : Q) :
  elementwise_call (fun v => leaky_tanh v alpha)
                   (fun x => OnTensor.leaky_tanh x alpha).
Proof.
  intros h x t Hx. unfold OnTensor.leaky_tanh.
  eexists. split; [run_new |].
  rewrite !map_entries_compose, !sum_map_entries.
  apply map_entries_image.
Qed.

(** C4. Called on a tensor of any shape, each of [hard_tanh],
    [hard_sigmoid] and [leaky_tanh] returns a new tensor of the same
    shape whose entry at every position is the one-entry function at the
    input's entry at that position; no call raises, and no call changes
    the input or any other tensor alive. *)
Theorem activations_elementwise (lower_b upper_b alpha : Q) :
  elementwise_call (fun v => hard_tanh v lower_b upper_b)
                   (fun x => OnTensor.hard_tanh x lower_b upper_b)
  /\ elementwise_call hard_sigmoid OnTensor.hard_sigmoid
  /\ elementwise_call (fun v => leaky_tanh v alpha)
                      (fun x => OnTensor.leaky_tanh x alpha).
Proof.
  split; [apply hard_tanh_call | split].
  - apply hard_sigmoid_call.
  - apply leaky_tanh_call.
Qed.

(** A heap with a rank-0 tensor, a tensor without entries and a matrix:
    one call of each activation. *)
Lemma activations_elementwise_witness :
  let h := [mkTensor [] [2]; mkTensor [3; 0; 2]%nat [];
            mkTensor [2; 2]%nat [-3; 0.5; 1; 7]] in
  (exists out : Tensor,
      returns_new (OnTensor.hard_tanh 0%nat (-1) 1) h out
      /\ elementwise_image (fun v => hard_tanh v (-1) 1)
                           (mkTensor [] [2]) out)
  /\ (exists out : Tensor,
         returns_new (OnTensor.hard_sigmoid 1%nat) h out
         /\ elementwise_image hard_sigmoid (mkTensor [3; 0; 2]%nat []) out)
  /\ (exists out : Tensor,
         returns_new (OnTensor.leaky_tanh 2%nat 0.2) h out
         /\ elementwise_image (fun v => leaky_tanh v 0.2)
                              (mkTensor [2; 2]%nat [-3; 0.5; 1; 7]) out).
Proof.
  intros h.
  destruct (activations_elementwise (-1) 1 0.2) as (Ht & Hs & Hl).
  split; [| split].
  - apply (Ht h 0%nat). reflexivity.
  - apply (Hs h 1%nat). reflexivity.
  - apply (Hl h 2%nat). reflexivity.
Defined.

(** ** The layer wrappers *)

(** C5. A [HardTanh] layer built with [lower_b] and [upper_b] keeps
    them and calls [hard_tanh] with them, a [HardSigmoid] layer calls
    [hard_sigmoid]; a wrapper reports no trainable and no non-trainable
    weight; [compute_output_shape] returns the shape it is given, which
    is the shape of the tensor [call] returns. *)
Theorem wrappers_forward
  (lower_b upper_b : Q) (kw_trainable : bool)
  (inputs : ref) (input_shape : list nat) :
  let ht := HardTanh.__init__ lower_b upper_b kw_trainable in
  let hs := HardSigmoid.__init__ kw_trainable in
  (HardTanh.lower_b ht = lower_b /\ HardTanh.upper_b ht = upper_b)
  /\ HardTanh.call ht inputs = OnTensor.hard_tanh inputs lower_b upper_b
  /\ HardSigmoid.call hs inputs = OnTensor.hard_sigmoid inputs
  /\ (HardTanh.trainable_weights ht = []
      /\ HardTanh.non_trainable_weights ht = [])
  /\ (HardSigmoid.trainable_weights hs = []
      /\ HardSigmoid.non_trainable_weights hs = [])
  /\ (HardTanh.compute_output_shape ht input_shape = input_shape
      /\ HardSigmoid.compute_output_shape hs input_shape = input_shape)
  /\ (forall (h : Heap) (t : Tensor),
         nth_error h inputs = Some t ->
         (exists out : Tensor,
             returns_new (HardTanh.call ht inputs) h out
             /\ shape out = HardTanh.compute_output_shape ht (shape t))
         /\ (exists out : Tensor,
                returns_new (HardSigmoid.call hs inputs) h out
                /\ shape out
                   = HardSigmoid.compute_output_shape hs (shape t))).
Proof.
  cbv zeta.
  split; [split; reflexivity |].
  split; [reflexivity |].
  split; [reflexivity |].
  split; [split; [destruct kw_trainable |]; reflexivity |].
  split; [split; [destruct kw_trainable |]; reflexivity |].
  split; [split; reflexivity |].
  intros h t Ht. split.
  - destruct (hard_tanh_call lower_b upper_b h inputs t Ht)
      as (out & Hrun & Hshape & _).
    exists out. split; [exact Hrun | exact Hshape].
  - destruct (hard_sigmoid_call h inputs t Ht) as (out & Hrun & Hshape & _).
    exists out. split; [exact Hrun | exact Hshape].
Qed.

Lemma wrappers_forward_witness :
  let h := [mkTensor [2; 2]%nat [-3; 0.5; 1; 7]] in
  exists out : Tensor,
    returns_new (HardTanh.call (HardTanh.__init__ (-2) 2 true) 0%nat) h out
    /\ shape out = [2; 2]%nat.
Proof.
  intros h.
  destruct (wrappers_forward (-2) 2 true 0%nat [2; 2]%nat)
    as (_ & _ & _ & _ & _ & _ & Hcall).
  destruct (Hcall h (mkTensor [2; 2]%nat [-3; 0.5; 1; 7])) as [Ht _].
  - reflexivity.
  - exact Ht.
Defined.

(** ** Totality and special values *)











(** * Further properties of the activations *)

(** ** Absolute values *)

Lemma Qabs_cases (a : Q) :
  (0 <= a /\ Qabs a == a) \/ (a <= 0 /\ Qabs a == - a).
Proof.
  destruct (Qlt_le_dec a 0) as [H | H].
  - right. split; [lra | apply Qabs_neg; lra].
  - left. split; [exact H | now apply Qabs_pos].
Qed.

(** Names every absolute value of the goal and keeps its two cases as a
    premise, so that the comparisons inside it are split with the rest. *)
Ltac abs_cases :=
  repeat match goal with
  | |- context [Qabs ?a] =>
      generalize (Qabs_cases a); generalize (Qabs a); intro
  end.

Ltac piecewise_solve :=
  intros; abs_cases; minmax_cases; intros;
  repeat match goal with
  | H : _ \/ _ |- _ => destruct H as [[? ?] | [? ?]]
  end;
  solve [lra | nra].

(** ** hard_tanh beyond ordered bounds *)

(** X1. The bounds are not validated: with [upper_b < lower_b] the
    result of [hard_tanh] is [lower_b], whatever [x] is. *)
Theorem hard_tanh_inverted_bounds (x lower_b upper_b : Q) :
  upper_b < lower_b -> hard_tanh x lower_b upper_b == lower_b.
Proof. apply clip_by_value_inverted. Qed.

Lemma hard_tanh_inverted_bounds_witness :
  hard_tanh 0 1 (-1) == 1 /\ hard_tanh 5 1 (-1) == 1.
Proof.
  split.
  - apply (hard_tanh_inverted_bounds 0 1 (-1)). lra.
  - apply (hard_tanh_inverted_bounds 5 1 (-1)). lra.
Defined.

(** X2. [hard_tanh] never moves two arguments apart: for any bounds,
    ordered or not, the distance of two results is at most the distance
    of the arguments. *)
Theorem hard_tanh_nonexpansive (x y lower_b upper_b : Q) :
  Qabs (hard_tanh x lower_b upper_b - hard_tanh y lower_b upper_b)
  <= Qabs (x - y).
Proof. piecewise_solve. Qed.

(** X3. Clipping twice: [hard_tanh] is idempotent for any bounds, ordered
    or not, and clipping into an interval and then into a wider one is
    clipping into the first. *)
Theorem hard_tanh_twice (x a b : Q) :
  hard_tanh (hard_tanh x a b) a b == hard_tanh x a b
  /\ forall c d : Q,
       c <= a -> a <= b -> b <= d ->
       hard_tanh (hard_tanh x a b) c d == hard_tanh x a b.
Proof.
  split.
  - apply clip_by_value_idempotent.
  - piecewise_solve.
Qed.

Lemma hard_tanh_twice_witness :
  hard_tanh (hard_tanh 5 0 1) (-1) 2 == hard_tanh 5 0 1.
Proof.
  destruct (hard_tanh_twice 5 0 1) as [_ Hwider].
  apply Hwider; lra.
Defined.

(** X4. With bounds symmetric about [0] the function is odd. *)
Theorem hard_tanh_odd (x b : Q) :
  0 <= b -> hard_tanh (- x) (- b) b == - hard_tanh x (- b) b.
Proof. piecewise_solve. Qed.

Lemma hard_tanh_odd_witness :
  hard_tanh (- 3) (- 1) 1 == - hard_tanh 3 (- 1) 1.
Proof. apply (hard_tanh_odd 3 1). lra. Defined.

(** ** hard_sigmoid *)

(** X5. [hard_sigmoid] saturates: it is [0] for every argument up to
    [-0.5] and [1] for every argument from [0.5] on. *)
Theorem hard_sigmoid_saturates (x : Q) :
  (x <= -0.5 -> hard_sigmoid x == 0)
  /\ (0.5 <= x -> hard_sigmoid x == 1).
Proof. split; piecewise_solve. Qed.

Lemma hard_sigmoid_saturates_witness :
  hard_sigmoid (-3) == 0 /\ hard_sigmoid 3 == 1.
Proof.
  split.
  - destruct (hard_sigmoid_saturates (-3)) as (Hlow & _).
    apply Hlow. lra.
  - destruct (hard_sigmoid_saturates 3) as (_ & Hhigh).
    apply Hhigh. lra.
Defined.

(** ** leaky_tanh and its slope *)


(** X7. [leaky_tanh] is odd for every slope. *)
Theorem leaky_tanh_odd (x alpha : Q) :
  leaky_tanh (- x) alpha == - leaky_tanh x alpha.
Proof. piecewise_solve. Qed.



(** In binary32 the results are rounded: with the slope [2^-30] the
    arguments [2] and [3] both give [1], and with the slope [1] the
    argument [16777218] gives [16777216].  This is why [leaky_tanh] is
    stated to be monotone and not strictly monotone, and why no identity
    at the slope [1] is stated. *)
Lemma leaky_tanh_binary32_rounding :
  Float32.leaky_tanh (Float32.of_int 2)
                     (binary_normalize Float32.prec Float32.emax 1 (-30) false)
  = Float32.one
  /\ Float32.leaky_tanh (Float32.of_int 3)
                        (binary_normalize Float32.prec Float32.emax 1 (-30) false)
     = Float32.one
  /\ Float32.leaky_tanh (Float32.of_int 16777218) Float32.one
     = Float32.of_int 16777216.
Proof. split; [| split]; vm_compute; reflexivity. Qed.



(** ** Stacking calls *)

Lemma preserved_length (h h' : Heap) :
  (forall (a : ref) (u : Tensor),
      nth_error h a = Some u -> nth_error h' a = Some u) ->
  (length h <= length h')%nat.
Proof.
  intros Hpres.
  destruct (Nat.le_gt_cases (length h) (length h')) as [Hle | Hgt];
    [exact Hle |].
  destruct (nth_error h (length h')) as [u |] eqn:Hu.
  - apply Hpres in Hu.
    assert (Hnone : nth_error h' (length h') = None)
      by (apply nth_error_None; lia).
    congruence.
  - apply nth_error_None in Hu. lia.
Qed.

Lemma elementwise_image_compose (f g : Q -> Q) (x mid out : Tensor) :
  elementwise_image f x mid -> elementwise_image g mid out ->
  elementwise_image (fun v => g (f v)) x out.
Proof.
  intros (Hs1 & Hv1 & He1) (Hs2 & Hv2 & He2).
  split; [congruence | split].
  - rewrite Hv2, Hv1. apply map_map.
  - intros i. rewrite He2, He1. now destruct (entry x i).
Qed.

(** Feeding the result of one entry-wise call to another is an
    entry-wise call of the composed function. *)
Lemma elementwise_call_compose (f g : Q -> Q) (c1 c2 : ref -> M ref) :
  elementwise_call f c1 -> elementwise_call g c2 ->
  elementwise_call (fun v => g (f v)) (fun x => y <- c1 x ;; c2 y).
Proof.
  intros H1 H2 h x t Hx.
  destruct (H1 h x t Hx)
    as (mid & (r1 & h1 & E1 & Hfresh1 & Hlive1 & Hpres1) & Himg1).
  destruct (H2 h1 r1 mid Hlive1)
    as (out & (r2 & h2 & E2 & Hfresh2 & Hlive2 & Hpres2) & Himg2).
  exists out. split.
  - exists r2, h2. split; [| split; [| split]].
    + unfold bind. now rewrite E1.
    + apply preserved_length in Hpres1. lia.
    + exact Hlive2.
    + intros a u Ha. apply Hpres2, Hpres1, Ha.
  - exact (elementwise_image_compose f g t mid out Himg1 Himg2).
Qed.

(** X12. Layers stack: a [HardSigmoid] layer followed by a [HardTanh]
    layer, and a [HardTanh] layer followed by a [HardSigmoid] layer, is
    the entry-wise map of the composed one-entry functions; it never
    raises and changes no tensor alive.  When the bounds of the
    [HardTanh] layer enclose [[0, 1]], placing it after a [HardSigmoid]
    layer changes no entry. *)
Theorem layers_stack (ht : HardTanh.t) (hs : HardSigmoid.t) :
  elementwise_call
    (fun v => hard_tanh (hard_sigmoid v)
                        (HardTanh.lower_b ht) (HardTanh.upper_b ht))
    (fun x => y <- HardSigmoid.call hs x ;; HardTanh.call ht y)
  /\ elementwise_call
       (fun v => hard_sigmoid
                   (hard_tanh v (HardTanh.lower_b ht) (HardTanh.upper_b ht)))
       (fun x => y <- HardTanh.call ht x ;; HardSigmoid.call hs y)
  /\ (HardTanh.lower_b ht <= 0 -> 1 <= HardTanh.upper_b ht ->
      forall v : Q,
        hard_tanh (hard_sigmoid v)
                  (HardTanh.lower_b ht) (HardTanh.upper_b ht)
        == hard_sigmoid v).
Proof.
  split; [| split].
  - apply (elementwise_call_compose
             hard_sigmoid
             (fun v => hard_tanh v (HardTanh.lower_b ht)
                                 (HardTanh.upper_b ht))).
    + apply hard_sigmoid_call.
    + apply hard_tanh_call.
  - apply (elementwise_call_compose
             (fun v => hard_tanh v (HardTanh.lower_b ht)
                                 (HardTanh.upper_b ht))
             hard_sigmoid).
    + apply hard_tanh_call.
    + apply hard_sigmoid_call.
  - generalize (HardTanh.lower_b ht) (HardTanh.upper_b ht).
    piecewise_solve.
Qed.

Lemma layers_stack_witness :
  hard_tanh (hard_sigmoid 0.25) (-1.0) 1.0 == hard_sigmoid 0.25.
Proof.
  destruct (layers_stack (HardTanh.__init__ (-1.0) 1.0 true)
                         (HardSigmoid.__init__ true)) as (_ & _ & Hsame).
  apply Hsame; simpl; lra.
Defined.

(** X13. A well-formed input gives a well-formed output: the buffer of
    the tensor an activation returns has as many entries as its shape
    says. *)
Theorem activations_well_formed
  (h : Heap) (x : ref) (t : Tensor) (lower_b upper_b alpha : Q) :
  nth_error h x = Some t -> well_formed t ->
  (exists out : Tensor,
      returns_new (OnTensor.hard_tanh x lower_b upper_b) h out
      /\ well_formed out)
  /\ (exists out : Tensor,
         returns_new (OnTensor.hard_sigmoid x) h out /\ well_formed out)
  /\ (exists out : Tensor,
         returns_new (OnTensor.leaky_tanh x alpha) h out
         /\ well_formed out).
Proof.
  intros Hx Hwf. split; [| split].
  - destruct (hard_tanh_call lower_b upper_b h x t Hx) as (out & Hrun & Himg).
    exists out. split; [exact Hrun |].
    exact (elementwise_image_well_formed _ t out Himg Hwf).
  - destruct (hard_sigmoid_call h x t Hx) as (out & Hrun & Himg).
    exists out. split; [exact Hrun |].
    exact (elementwise_image_well_formed _ t out Himg Hwf).
  - destruct (leaky_tanh_call alpha h x t Hx) as (out & Hrun & Himg).
    exists out. split; [exact Hrun |].
    exact (elementwise_image_well_formed _ t out Himg Hwf).
Qed.

Lemma activations_well_formed_witness :
  exists out : Tensor,
    returns_new (OnTensor.leaky_tanh 0%nat 0.2)
                [mkTensor [2; 3]%nat [-3; -1; 0; 0.5; 1; 7]] out
    /\ well_formed out.
Proof.
  destruct (activations_well_formed
              [mkTensor [2; 3]%nat [-3; -1; 0; 0.5; 1; 7]] 0%nat
              (mkTensor [2; 3]%nat [-3; -1; 0; 0.5; 1; 7]) (-1) 1 0.2)
    as (_ & _ & Hleaky).
  - reflexivity.
  - reflexivity.
  - exact Hleaky.
Defined.

(** ** Dictionaries *)

Lemma dict_get_set_same (d : dict) (k : string) (v : pyval) :
  dict_get (dict_set d k v) k = Some v.
Proof.
  induction d as [| [k' v'] d IH]; simpl.
  - now rewrite String.eqb_refl.
  - destruct (String.eqb k' k) eqn:E; simpl; now rewrite E.
Qed.

Lemma dict_get_set_other (d : dict) (k k' : string) (v : pyval) :
  k <> k' -> dict_get (dict_set d k v) k' = dict_get d k'.
Proof.
  intros Hk. induction d as [| [k0 v0] d IH]; simpl.
  - destruct (String.eqb k k') eqn:E; [| reflexivity].
    apply String.eqb_eq in E. contradiction.
  - destruct (String.eqb k0 k) eqn:E; simpl.
    + apply String.eqb_eq in E. subst k0.
      destruct (String.eqb k k') eqn:E'; [| reflexivity].
      apply String.eqb_eq in E'. contradiction.
    + destruct (String.eqb k0 k'); [reflexivity | exact IH].
Qed.

Lemma dict_set_new (d : dict) (k : string) (v : pyval) :
  ~ In k (dict_keys d) -> dict_set d k v = d ++ [(k, v)].
Proof.
  induction d as [| [k' v'] d IH]; simpl; intros Hk; [reflexivity |].
  destruct (String.eqb k' k) eqn:E.
  - apply String.eqb_eq in E. tauto.
  - rewrite IH; [reflexivity | tauto].
Qed.

Lemma dict_keys_set_present (d : dict) (k : string) (v : pyval) :
  In k (dict_keys d) -> dict_keys (dict_set d k v) = dict_keys d.
Proof.
  induction d as [| [k' v'] d IH]; simpl; intros Hk; [contradiction |].
  destruct (String.eqb k' k) eqn:E; simpl; [reflexivity |].
  apply String.eqb_neq in E.
  rewrite IH; [reflexivity |]. destruct Hk; [contradiction | assumption].
Qed.

Lemma dict_set_wf (d : dict) (k : string) (v : pyval) :
  dict_wf d -> dict_wf (dict_set d k v).
Proof.
  unfold dict_wf. intros Hd.
  destruct (in_dec string_dec k (dict_keys d)) as [Hin | Hout].
  - now rewrite dict_keys_set_present.
  - rewrite dict_set_new by exact Hout.
    unfold dict_keys. rewrite map_app. simpl.
    apply NoDup_app; [exact Hd | repeat constructor; auto |].
    intros a Ha [Hak | []]. subst a. contradiction.
Qed.

(** Updating with a dictionary that shares no key appends its items. *)
Lemma dict_update_disjoint (acc d : dict) :
  dict_wf (acc ++ d) -> dict_update acc d = acc ++ d.
Proof.
  revert acc. induction d as [| [k v] d IH]; intros acc Hwf; simpl.
  - now rewrite app_nil_r.
  - unfold dict_update in *. simpl.
    assert (Hk : ~ In k (dict_keys acc)).
    { unfold dict_wf, dict_keys in Hwf. rewrite map_app in Hwf. simpl in Hwf.
      apply NoDup_remove_2 in Hwf. rewrite in_app_iff in Hwf. tauto. }
    rewrite (dict_set_new acc k v Hk).
    rewrite IH; rewrite <- app_assoc; [reflexivity | exact Hwf].
Qed.

Lemma dict_copy (d : dict) : dict_wf d -> dict_update [] d = d.
Proof. intros Hd. now rewrite dict_update_disjoint. Qed.

(** ** get_config *)

(** X14. The configuration of a [HardTanh] layer maps ["lower_b"] and
    ["upper_b"] to the bounds of the layer, also when the base class's
    configuration has items under these keys; every other key has the
    value it has in the base class's configuration. *)
Theorem HardTanh_get_config_items (self : HardTanh.t) (super_config : dict) :
  dict_get (HardTanh.get_config self super_config) "lower_b"
  = Some (VFloat (HardTanh.lower_b self))
  /\ dict_get (HardTanh.get_config self super_config) "upper_b"
     = Some (VFloat (HardTanh.upper_b self))
  /\ (dict_wf super_config ->
      forall k : string,
        k <> "lower_b"%string -> k <> "upper_b"%string ->
        dict_get (HardTanh.get_config self super_config) k
        = dict_get super_config k).
Proof.
  unfold HardTanh.get_config. split; [| split].
  - rewrite dict_get_set_other by discriminate.
    apply dict_get_set_same.
  - apply dict_get_set_same.
  - intros Hwf k Hl Hu.
    rewrite !dict_get_set_other by congruence.
    now rewrite dict_copy.
Qed.

Lemma HardTanh_get_config_items_witness :
  let base := [("name"%string, VStr "hard_tanh");
               ("trainable"%string, VBool true);
               ("lower_b"%string, VNone)] in
  dict_get (HardTanh.get_config (HardTanh.__init__ (-2) 2 true) base) "name"
  = Some (VStr "hard_tanh")
  /\ dict_get (HardTanh.get_config (HardTanh.__init__ (-2) 2 true) base)
              "lower_b"
     = Some (VFloat (-2)).
Proof.
  intros base.
  destruct (HardTanh_get_config_items
              (HardTanh.__init__ (-2) 2 true) base) as (Hl & _ & Hother).
  split.
  - rewrite Hother; [reflexivity | | discriminate | discriminate].
    repeat constructor; simpl; intuition discriminate.
  - exact Hl.
Defined.

(** X15. The configurations keep their keys distinct and in order: the
    one of a [HardSigmoid] layer is the base class's configuration, the
    one of a [HardTanh] layer is the base class's configuration followed
    by ["lower_b"] and ["upper_b"] when the base class uses neither
    key. *)
Theorem get_config_layout
  (ht : HardTanh.t) (hs : HardSigmoid.t) (super_config : dict) :
  dict_wf super_config ->
  HardSigmoid.get_config hs super_config = super_config
  /\ dict_wf (HardTanh.get_config ht super_config)
  /\ (~ In "lower_b"%string (dict_keys super_config) ->
      ~ In "upper_b"%string (dict_keys super_config) ->
      HardTanh.get_config ht super_config
      = super_config
          ++ [("lower_b"%string, VFloat (HardTanh.lower_b ht));
              ("upper_b"%string, VFloat (HardTanh.upper_b ht))]).
Proof.
  intros Hwf.
  unfold HardSigmoid.get_config, HardTanh.get_config.
  rewrite (dict_copy super_config Hwf).
  split; [reflexivity | split].
  - now apply dict_set_wf, dict_set_wf.
  - intros Hl Hu.
    rewrite (dict_set_new super_config) by exact Hl.
    rewrite dict_set_new.
    + now rewrite <- app_assoc.
    + unfold dict_keys. rewrite map_app, in_app_iff. simpl.
      intros [H | [H | []]]; [now apply Hu | discriminate].
Qed.

Lemma get_config_layout_witness :
  let base := [("name"%string, VStr "hard_tanh");
               ("trainable"%string, VBool true)] in
  HardTanh.get_config (HardTanh.__init__ (-2) 2 true) base
  = base ++ [("lower_b"%string, VFloat (-2)); ("upper_b"%string, VFloat 2)].
Proof.
  intros base.
  destruct (get_config_layout (HardTanh.__init__ (-2) 2 true)
                              (HardSigmoid.__init__ true) base)
    as (_ & _ & Hlayout).
  - repeat constructor; simpl; intuition discriminate.
  - apply Hlayout; simpl; intuition discriminate.
Defined.
